(** * The interface of the [freederation_nostr_backend] canister

    The repository ships three descriptions of one remote interface:

    - [freederation_nostr_backend.did], the Candid service definition;
    - [freederation_nostr_backend.did.d.ts], the TypeScript declarations;
    - the JavaScript module exporting [idlFactory] and [init].

    Each of them is embedded below as the value it denotes, and the
    three are compared. *)

From Stdlib Require Import List String Bool Arith Lia.
Import ListNotations.
Open Scope string_scope.
Open Scope list_scope.

Set Implicit Arguments.
Set Warnings "-register-all".

(** ** Association lists

    A JavaScript object literal with string keys, a Candid service body
    and a TypeScript interface body are all read as association lists in
    the order in which their members are written. *)

Section Assoc.
Variable V : Type.

Definition obj := list (string * V).

Definition keys (o : obj) : list string := map fst o.

Fixpoint get (k : string) (o : obj) : option V :=
  match o with
  | [] => None
  | (k', v) :: o' => if String.eqb k k' then Some v else get k o'
  end.
End Assoc.

Arguments get {V} k o.
Arguments keys {V} o.

(** ** The [IDL] namespace of the Candid library

    [idlFactory] and [init] receive the object [{ IDL }].  They use five
    of its members: the constants [IDL.Text] and [IDL.Bool] and the
    constructors [IDL.Record], [IDL.Func] and [IDL.Service].  The library
    is a dependency, so the namespace is a parameter: [T] is the
    library's type of IDL types, [F] the type [IDL.Func] builds and [S]
    the type [IDL.Service] builds. *)

Record IDL_namespace (T F S : Type) : Type := {
  Text : T;
  Bool : T;
  Record' : obj T -> T;
  Func : list T -> list T -> list string -> F;
  Service : obj F -> S
}.

(** The argument object [{ IDL }]. *)
Record factory_args (T F S : Type) : Type := {
  IDL : IDL_namespace T F S
}.

(** ** The JavaScript module *)

Section Module_js.
Context {T F S : Type}.

Definition idlFactory (args : factory_args T F S) : S :=
  let IDL := IDL args in
  let SIGNATURE_INFO :=
    Record' IDL [
      ("verifying_key", Text IDL);
      ("signature_str", Text IDL)
    ] in
  Service IDL [
    ("generate_key", Func IDL [] [Text IDL] ["query"]);
    ("greet", Func IDL [Text IDL] [Text IDL] ["query"]);
    ("rng_seed", Func IDL [] [Text IDL] ["query"]);
    ("schnorr_signature",
      Func IDL
        [Text IDL; Text IDL]
        [SIGNATURE_INFO]
        ["query"]);
    ("update_rng_seed", Func IDL [Text IDL] [] []);
    ("validate_schnorr",
      Func IDL
        [Text IDL; Text IDL; Text IDL]
        [Bool IDL]
        ["query"])
  ].

Definition init (args : factory_args T F S) : list T := [].
End Module_js.

(** ** The descriptions an [IDL] namespace builds, as terms

    The term model of the namespace: every member builds the term that
    records its arguments.  A service description is read off this
    model. *)

Inductive idl_type : Type :=
| TextClass : idl_type
| BoolClass : idl_type
| RecordClass (fields : obj idl_type) : idl_type.

Record FuncClass : Type := {
  argTypes : list idl_type;
  retTypes : list idl_type;
  annotations : list string
}.

Record ServiceClass : Type := {
  methods : obj FuncClass
}.

Definition term_IDL : IDL_namespace idl_type FuncClass ServiceClass := {|
  Text := TextClass;
  Bool := BoolClass;
  Record' := RecordClass;
  Func := Build_FuncClass;
  Service := Build_ServiceClass
|}.

Definition term_args : factory_args idl_type FuncClass ServiceClass :=
  {| IDL := term_IDL |}.

(** Induction over descriptions, through the fields of a record. *)
Section idl_type_induction.
Variable P : idl_type -> Prop.
Hypothesis P_Text : P TextClass.
Hypothesis P_Bool : P BoolClass.
Hypothesis P_Record :
  forall fields,
    Forall (fun f => P (snd f)) fields -> P (RecordClass fields).

Fixpoint idl_type_nested_ind (t : idl_type) : P t :=
  match t with
  | TextClass => P_Text
  | BoolClass => P_Bool
  | RecordClass fields =>
      P_Record
        ((fix all (l : obj idl_type) : Forall (fun f => P (snd f)) l :=
            match l with
            | [] => Forall_nil _
            | f :: l' =>
                Forall_cons f (idl_type_nested_ind (snd f)) (all l')
            end) fields)
  end.
End idl_type_induction.

(** The interpretation of a term in an arbitrary namespace. *)
Section Interp.
Context {T F S : Type} (I : IDL_namespace T F S).

Fixpoint interp_type (t : idl_type) : T :=
  match t with
  | TextClass => Text I
  | BoolClass => Bool I
  | RecordClass fields =>
      Record' I (map (fun f => (fst f, interp_type (snd f))) fields)
  end.

Definition interp_func (f : FuncClass) : F :=
  Func I (map interp_type (argTypes f)) (map interp_type (retTypes f))
    (annotations f).

Definition interp_service (s : ServiceClass) : S :=
  Service I (map (fun m => (fst m, interp_func (snd m))) (methods s)).
End Interp.

(** The record types occurring in a description. *)
Fixpoint records_of_type (t : idl_type) : list idl_type :=
  match t with
  | TextClass | BoolClass => []
  | RecordClass fields =>
      t :: flat_map (fun f => records_of_type (snd f)) fields
  end.

Definition records_of_func (f : FuncClass) : list idl_type :=
  flat_map records_of_type (argTypes f ++ retTypes f).

Definition records_of_service (s : ServiceClass) : list idl_type :=
  flat_map (fun m => records_of_func (snd m)) (methods s).

Definition is_query (f : FuncClass) : bool :=
  existsb (String.eqb "query") (annotations f).

(** A method without its annotations: the signature alone. *)
Definition erase_annotations (f : FuncClass) : FuncClass :=
  {| argTypes := argTypes f; retTypes := retTypes f; annotations := [] |}.

Definition erase_service (s : ServiceClass) : ServiceClass :=
  {| methods := map (fun m => (fst m, erase_annotations (snd m))) (methods s) |}.

(** ** Partial maps over lists *)

Fixpoint traverse {A B : Type} (f : A -> option B) (l : list A)
  : option (list B) :=
  match l with
  | [] => Some []
  | a :: l' =>
      match f a, traverse f l' with
      | Some b, Some bs => Some (b :: bs)
      | _, _ => None
      end
  end.

Definition on_snd {K A B : Type} (f : A -> option B) (p : K * A)
  : option (K * B) :=
  option_map (pair (fst p)) (f (snd p)).

(** ** The Candid file *)

Inductive did_type : Type :=
| did_text : did_type
| did_bool : did_type
| did_record (fields : obj did_type) : did_type
| did_id (name : string) : did_type.

(** [name : (args) -> (rets) anns] *)
Record did_method : Type := {
  did_args : list did_type;
  did_rets : list did_type;
  did_anns : list string
}.

Record did_file : Type := {
  type_defs : obj did_type;
  service : obj did_method
}.

Definition freederation_nostr_backend_did : did_file := {|
  type_defs := [
    ("SIGNATURE_INFO",
      did_record [("verifying_key", did_text); ("signature_str", did_text)])
  ];
  service := [
    ("generate_key",
      {| did_args := []; did_rets := [did_text]; did_anns := ["query"] |});
    ("greet",
      {| did_args := [did_text]; did_rets := [did_text];
         did_anns := ["query"] |});
    ("rng_seed",
      {| did_args := []; did_rets := [did_text]; did_anns := ["query"] |});
    ("schnorr_signature",
      {| did_args := [did_text; did_text];
         did_rets := [did_id "SIGNATURE_INFO"];
         did_anns := ["query"] |});
    ("update_rng_seed",
      {| did_args := [did_text]; did_rets := []; did_anns := [] |});
    ("validate_schnorr",
      {| did_args := [did_text; did_text; did_text];
         did_rets := [did_bool];
         did_anns := ["query"] |})
  ]
|}.

(** The type a Candid type expression stands for, with the type names
    looked up among the definitions of the file.  Definitions may refer
    to one another, hence the fuel; an unbound name gives [None]. *)
Fixpoint did_resolve (fuel : nat) (defs : obj did_type) (t : did_type)
  : option idl_type :=
  match fuel with
  | 0 => None
  | S fuel' =>
      match t with
      | did_text => Some TextClass
      | did_bool => Some BoolClass
      | did_record fields =>
          option_map RecordClass
            (traverse (on_snd (did_resolve fuel' defs)) fields)
      | did_id name =>
          match get name defs with
          | Some d => did_resolve fuel' defs d
          | None => None
          end
      end
  end.

Definition did_resolve_method (fuel : nat) (defs : obj did_type)
  (m : did_method) : option FuncClass :=
  match traverse (did_resolve fuel defs) (did_args m),
        traverse (did_resolve fuel defs) (did_rets m) with
  | Some args, Some rets =>
      Some {| argTypes := args; retTypes := rets;
              annotations := did_anns m |}
  | _, _ => None
  end.

Definition did_denote (fuel : nat) (d : did_file) : option ServiceClass :=
  option_map Build_ServiceClass
    (traverse (on_snd (did_resolve_method fuel (type_defs d))) (service d)).

(** The record types a Candid file declares by name. *)
Definition did_record_defs (d : did_file) : obj did_type :=
  filter (fun def => match snd def with did_record _ => true | _ => false end)
    (type_defs d).

(** ** The TypeScript declarations *)

Inductive ts_type : Type :=
| ts_string : ts_type
| ts_boolean : ts_type
| ts_undefined : ts_type
| ts_ref (name : string) : ts_type
| ts_tuple (elems : list ts_type) : ts_type
| ts_ActorMethod (args ret : ts_type) : ts_type.

(** [export interface name { members }], in the order of the file. *)
Record ts_declarations : Type := {
  interfaces : obj (obj ts_type)
}.

Definition freederation_nostr_backend_did_d_ts : ts_declarations := {|
  interfaces := [
    ("SIGNATURE_INFO", [
      ("verifying_key", ts_string);
      ("signature_str", ts_string)
    ]);
    ("_SERVICE", [
      ("generate_key", ts_ActorMethod (ts_tuple []) ts_string);
      ("greet", ts_ActorMethod (ts_tuple [ts_string]) ts_string);
      ("rng_seed", ts_ActorMethod (ts_tuple []) ts_string);
      ("schnorr_signature",
        ts_ActorMethod (ts_tuple [ts_string; ts_string])
          (ts_ref "SIGNATURE_INFO"));
      ("update_rng_seed",
        ts_ActorMethod (ts_tuple [ts_string]) ts_undefined);
      ("validate_schnorr",
        ts_ActorMethod (ts_tuple [ts_string; ts_string; ts_string])
          ts_boolean)
    ])
  ]
|}.

(** The Candid type a TypeScript type is the binding of: [string] for
    text, [boolean] for bool, an interface for a record. *)
Fixpoint ts_resolve (fuel : nat) (decls : obj (obj ts_type)) (t : ts_type)
  : option idl_type :=
  match fuel with
  | 0 => None
  | S fuel' =>
      match t with
      | ts_string => Some TextClass
      | ts_boolean => Some BoolClass
      | ts_ref name =>
          match get name decls with
          | Some members =>
              option_map RecordClass
                (traverse (on_snd (ts_resolve fuel' decls)) members)
          | None => None
          end
      | ts_undefined | ts_tuple _ | ts_ActorMethod _ _ => None
      end
  end.

(** [ActorMethod<Args, Ret>] has two parameters, the tuple of the
    argument types and the result type, [undefined] when the method has
    no result.  It has no place for an annotation: the method it
    declares carries none. *)
Definition ts_resolve_method (fuel : nat) (decls : obj (obj ts_type))
  (t : ts_type) : option FuncClass :=
  match t with
  | ts_ActorMethod (ts_tuple args) ret =>
      match traverse (ts_resolve fuel decls) args,
            match ret with
            | ts_undefined => Some []
            | _ => option_map (fun r => [r]) (ts_resolve fuel decls ret)
            end with
      | Some args', Some rets' =>
          Some {| argTypes := args'; retTypes := rets'; annotations := [] |}
      | _, _ => None
      end
  | _ => None
  end.

Definition ts_denote (fuel : nat) (d : ts_declarations)
  : option ServiceClass :=
  match get "_SERVICE" (interfaces d) with
  | Some members =>
      option_map Build_ServiceClass
        (traverse (on_snd (ts_resolve_method fuel (interfaces d))) members)
  | None => None
  end.

(** The interfaces other than the service itself. *)
Definition ts_record_decls (d : ts_declarations) : obj (obj ts_type) :=
  filter (fun i => negb (String.eqb (fst i) "_SERVICE")) (interfaces d).

(** ** The canister behind the interface

    The three files describe the boundary of the canister and none of
    them holds a method body.  The seed store and the greeting stub are
    modelled as state-passing computations over the canister state. *)

(** Modelled from the spec: the state of the seed store, missing from
    the source files; it holds the current seed material of the
    process-wide random generator. *)
Record canister_state : Type := {
  seed : string
}.

Definition call (A : Type) : Type := canister_state -> A * canister_state.

Definition ret {A : Type} (a : A) : call A := fun st => (a, st).

Definition bind {A B : Type} (c : call A) (k : A -> call B) : call B :=
  fun st => let (a, st') := c st in k a st'.

Definition read : call canister_state := fun st => (st, st).

Definition write (st' : canister_state) : call unit := fun _ => (tt, st').

Notation "x <- c ;; k" := (bind c (fun x => k))
  (at level 61, c at next level, right associativity).
Notation "c ;;; k" := (bind c (fun _ => k))
  (at level 61, right associativity).

(** Modelled from the spec: the method body of [rng_seed], missing from
    the source files; it exposes the current seed material. *)
Definition rng_seed : call string :=
  st <- read ;; ret (seed st).

(** Modelled from the spec: the method body of [update_rng_seed],
    missing from the source files; it replaces the seed material. *)
Definition update_rng_seed (s : string) : call unit :=
  write {| seed := s |}.

(** Modelled from the spec: the method body of [greet], missing from the
    source files; a trivial echo. *)
Definition greet (s : string) : call string :=
  ret s.

(** ** What a description declares *)

(** The argument and result types of every method, by name. *)
Definition signature_of (s : ServiceClass)
  : obj (list idl_type * list idl_type) :=
  map (fun m => (fst m, (argTypes (snd m), retTypes (snd m)))) (methods s).

Definition query_methods (s : ServiceClass) : list string :=
  keys (filter (fun m => is_query (snd m)) (methods s)).

Definition update_methods (s : ServiceClass) : list string :=
  keys (filter (fun m => negb (is_query (snd m))) (methods s)).

(** The Candid file and the TypeScript declarations both stand for the
    service description [s]: same methods, same argument and result
    types, same annotations, same record shapes. *)
Definition descriptions_agree (fuel : nat) (d : did_file)
  (t : ts_declarations) (s : ServiceClass) : Prop :=
  did_denote fuel d = Some s /\ ts_denote fuel t = Some s.

(** ** A namespace without annotations

    The namespace that keeps of a method its argument and result types
    and drops its annotations. *)

Definition signature_IDL
  : IDL_namespace idl_type (list idl_type * list idl_type)
      (obj (list idl_type * list idl_type)) := {|
  Text := TextClass;
  Bool := BoolClass;
  Record' := RecordClass;
  Func := fun args rets _ => (args, rets);
  Service := fun ms => ms
|}.

(** * Properties *)

(** ** Association lists *)

Lemma get_None_iff (V : Type) (k : string) (o : obj V) :
  get k o = None <-> ~ In k (keys o).
Proof.
  induction o as [|[k' v] o IH]; simpl.
  - tauto.
  - destruct (String.eqb_spec k k') as [->|Hne].
    + split; [discriminate | intros H; exfalso; apply H; now left].
    + rewrite IH. split.
      * intros H [Heq|Hin]; [now apply Hne | now apply H].
      * intros H Hin. apply H. now right.
Qed.

Lemma get_Some_in_keys (V : Type) (k : string) (o : obj V) (v : V) :
  get k o = Some v -> In k (keys o).
Proof.
  intros H. destruct (in_dec string_dec k (keys o)) as [Hin|Hout]; trivial.
  apply get_None_iff in Hout. congruence.
Qed.

Lemma keys_map_snd (A B : Type) (f : A -> B) (o : obj A) :
  keys (map (fun m => (fst m, f (snd m))) o) = keys o.
Proof.
  unfold keys. rewrite map_map. now apply map_ext.
Qed.

Lemma get_map_snd (A B : Type) (f : A -> B) (k : string) (o : obj A) :
  get k (map (fun m => (fst m, f (snd m))) o) = option_map f (get k o).
Proof.
  induction o as [|[k' v] o IH]; simpl; trivial.
  now destruct (String.eqb k k').
Qed.

(** ** Partial maps *)

Lemma traverse_mono (A B : Type) (f g : A -> option B) (l : list A) :
  Forall (fun a => forall b, f a = Some b -> g a = Some b) l ->
  forall bs, traverse f l = Some bs -> traverse g l = Some bs.
Proof.
  induction 1 as [|a l Ha _ IH]; simpl; intros bs; trivial.
  destruct (f a) as [b|] eqn:Hfa; [|discriminate].
  destruct (traverse f l) as [bs'|] eqn:Hfl; [|discriminate].
  now rewrite (Ha b eq_refl), (IH bs' eq_refl).
Qed.

Lemma traverse_on_snd_keys (A B : Type) (f : A -> option B) (o : obj A) :
  forall o', traverse (on_snd f) o = Some o' -> keys o' = keys o.
Proof.
  induction o as [|[k a] o IH]; simpl; intros o'.
  - now intros [= <-].
  - unfold on_snd at 1. simpl. destruct (f a); simpl; [|discriminate].
    destruct (traverse (on_snd f) o) as [o''|]; [|discriminate].
    intros [= <-]. simpl. now rewrite (IH o'').
Qed.

Lemma on_snd_mono (K A B : Type) (f g : A -> option B) (p : K * A) :
  (forall b, f (snd p) = Some b -> g (snd p) = Some b) ->
  forall q, on_snd f p = Some q -> on_snd g p = Some q.
Proof.
  unfold on_snd. intros H q.
  destruct (f (snd p)) as [b|]; [|discriminate].
  now rewrite (H b eq_refl).
Qed.

(** ** Resolution of Candid type names *)

(** More fuel never changes a type that is already resolved. *)
Lemma did_resolve_fuel (defs : obj did_type) (fuel : nat) :
  forall t v,
    did_resolve fuel defs t = Some v ->
    did_resolve (S fuel) defs t = Some v.
Proof.
  induction fuel as [|fuel IH]; intros t v; [discriminate|].
  destruct t as [| |fields|name]; trivial.
  - change (did_resolve (S fuel) defs (did_record fields))
      with (option_map RecordClass
              (traverse (on_snd (did_resolve fuel defs)) fields)).
    change (did_resolve (S (S fuel)) defs (did_record fields))
      with (option_map RecordClass
              (traverse (on_snd (did_resolve (S fuel) defs)) fields)).
    destruct (traverse (on_snd (did_resolve fuel defs)) fields)
      as [fs|] eqn:Hfs; [|discriminate].
    intros [= <-].
    erewrite traverse_mono; [reflexivity| |exact Hfs].
    apply Forall_forall. intros p _. apply on_snd_mono. apply IH.
  - change (did_resolve (S fuel) defs (did_id name))
      with (match get name defs with
            | Some d => did_resolve fuel defs d
            | None => None
            end).
    change (did_resolve (S (S fuel)) defs (did_id name))
      with (match get name defs with
            | Some d => did_resolve (S fuel) defs d
            | None => None
            end).
    destruct (get name defs); [apply IH | discriminate].
Qed.

Lemma did_resolve_method_fuel (defs : obj did_type) (fuel : nat)
  (m : did_method) (f : FuncClass) :
  did_resolve_method fuel defs m = Some f ->
  did_resolve_method (S fuel) defs m = Some f.
Proof.
  unfold did_resolve_method.
  destruct (traverse (did_resolve fuel defs) (did_args m))
    as [args|] eqn:Ha; [|discriminate].
  destruct (traverse (did_resolve fuel defs) (did_rets m))
    as [rets|] eqn:Hr; [|discriminate].
  intros [= <-].
  assert (Hmono : forall l,
             Forall (fun t => forall v, did_resolve fuel defs t = Some v ->
                                        did_resolve (S fuel) defs t = Some v) l).
  { intros l. apply Forall_forall. intros t _. apply did_resolve_fuel. }
  apply (traverse_mono _ _ (Hmono _)) in Ha, Hr.
  now rewrite Ha, Hr.
Qed.

Lemma did_denote_fuel (d : did_file) (fuel : nat) (s : ServiceClass) :
  did_denote fuel d = Some s -> did_denote (S fuel) d = Some s.
Proof.
  unfold did_denote.
  destruct (traverse (on_snd (did_resolve_method fuel (type_defs d)))
              (service d)) as [ms|] eqn:Hms; [|discriminate].
  intros [= <-].
  erewrite traverse_mono; [reflexivity| |exact Hms].
  apply Forall_forall. intros p _. apply on_snd_mono.
  apply did_resolve_method_fuel.
Qed.

(** A resolved service has the methods of the file, in its order. *)
Lemma did_denote_keys (d : did_file) (fuel : nat) (s : ServiceClass) :
  did_denote fuel d = Some s -> keys (methods s) = keys (service d).
Proof.
  unfold did_denote.
  destruct (traverse _ (service d)) as [ms|] eqn:Hms; [|discriminate].
  intros [= <-]. simpl. now apply traverse_on_snd_keys in Hms.
Qed.

(** ** Interpretation of descriptions *)

(** The term model interprets every description as itself. *)
Lemma interp_type_term (t : idl_type) : interp_type term_IDL t = t.
Proof.
  induction t as [| |fields IH] using idl_type_nested_ind; trivial.
  simpl. f_equal.
  induction IH as [|[k t] l Ht _ IHl]; simpl; trivial.
  simpl in Ht. now rewrite Ht, IHl.
Qed.

(** ** The TypeScript declarations carry no annotation *)

Lemma traverse_Forall (A B : Type) (f : A -> option B) (P : B -> Prop)
  (l : list A) :
  (forall a b, f a = Some b -> P b) ->
  forall bs, traverse f l = Some bs -> Forall P bs.
Proof.
  intros HP. induction l as [|a l IH]; simpl; intros bs.
  - intros [= <-]. constructor.
  - destruct (f a) as [b|] eqn:Hfa; [|discriminate].
    destruct (traverse f l) as [bs'|]; [|discriminate].
    intros [= <-]. constructor; [now apply (HP a) | now apply IH].
Qed.

Lemma ts_resolve_method_annotations (fuel : nat) (decls : obj (obj ts_type))
  (t : ts_type) (f : FuncClass) :
  ts_resolve_method fuel decls t = Some f -> annotations f = [].
Proof.
  unfold ts_resolve_method.
  destruct t as [| | | | |args ret]; try discriminate.
  destruct args as [| | | |elems|]; try discriminate.
  destruct (traverse (ts_resolve fuel decls) elems); [|discriminate].
  destruct (match ret with ts_undefined => _ | _ => _ end);
    [|discriminate].
  now intros [= <-].
Qed.

Lemma ts_denote_annotations (fuel : nat) (d : ts_declarations)
  (s : ServiceClass) :
  ts_denote fuel d = Some s ->
  Forall (fun m => annotations (snd m) = []) (methods s).
Proof.
  unfold ts_denote.
  destruct (get "_SERVICE" (interfaces d)) as [members|]; [|discriminate].
  destruct (traverse _ members) as [ms|] eqn:Hms; [|discriminate].
  intros [= <-]. simpl.
  revert Hms. apply traverse_Forall. intros [k t] [k' f]. unfold on_snd. simpl.
  destruct (ts_resolve_method fuel (interfaces d) t) as [f'|] eqn:Hf;
    [|discriminate].
  intros [= _ <-]. simpl. now apply ts_resolve_method_annotations in Hf.
Qed.

Lemma erase_service_keys (s : ServiceClass) :
  keys (methods (erase_service s)) = keys (methods s).
Proof. unfold erase_service. simpl. apply keys_map_snd. Qed.

Lemma erase_service_signature (s : ServiceClass) :
  signature_of (erase_service s) = signature_of s.
Proof.
  unfold signature_of, erase_service. simpl. rewrite map_map.
  now apply map_ext.
Qed.

(** ** The declared interface *)

(** C1: each of the three descriptions declares the six methods
    generate_key, greet, rng_seed, schnorr_signature, update_rng_seed
    and validate_schnorr and no other, and the record SIGNATURE_INFO and
    no other composite type. *)
Theorem six_methods_one_record :
  keys (service freederation_nostr_backend_did)
    = ["generate_key"; "greet"; "rng_seed"; "schnorr_signature";
       "update_rng_seed"; "validate_schnorr"]
  /\ keys (type_defs freederation_nostr_backend_did) = ["SIGNATURE_INFO"]
  /\ keys (did_record_defs freederation_nostr_backend_did)
       = ["SIGNATURE_INFO"]
  /\ keys (methods (idlFactory term_args))
       = ["generate_key"; "greet"; "rng_seed"; "schnorr_signature";
          "update_rng_seed"; "validate_schnorr"]
  /\ List.length (records_of_service (idlFactory term_args)) = 1
  /\ option_map keys
       (get "_SERVICE" (interfaces freederation_nostr_backend_did_d_ts))
       = Some ["generate_key"; "greet"; "rng_seed"; "schnorr_signature";
               "update_rng_seed"; "validate_schnorr"]
  /\ keys (ts_record_decls freederation_nostr_backend_did_d_ts)
       = ["SIGNATURE_INFO"].
Proof. repeat split. Qed.

(** A name outside the six is not a method of the service. *)
Lemma undeclared_method (name : string) :
  ~ In name ["generate_key"; "greet"; "rng_seed"; "schnorr_signature";
             "update_rng_seed"; "validate_schnorr"] ->
  get name (methods (idlFactory term_args)) = None.
Proof. intros H. now apply get_None_iff. Qed.

(** C2: the argument and result types of the six methods are those of
    the interface table, in the service built by [idlFactory], in the
    Candid file and in the TypeScript declarations alike. *)
Theorem method_shapes (n : nat) :
  let SIGNATURE_INFO :=
    RecordClass [("verifying_key", TextClass); ("signature_str", TextClass)] in
  let table :=
    [("generate_key", ([], [TextClass]));
     ("greet", ([TextClass], [TextClass]));
     ("rng_seed", ([], [TextClass]));
     ("schnorr_signature", ([TextClass; TextClass], [SIGNATURE_INFO]));
     ("update_rng_seed", ([TextClass], []));
     ("validate_schnorr", ([TextClass; TextClass; TextClass], [BoolClass]))] in
  signature_of (idlFactory term_args) = table
  /\ option_map signature_of (did_denote (3 + n) freederation_nostr_backend_did)
       = Some table
  /\ option_map signature_of
       (ts_denote (3 + n) freederation_nostr_backend_did_d_ts)
       = Some table.
Proof. repeat split. Qed.

(** C3: generate_key, greet, rng_seed, schnorr_signature and
    validate_schnorr carry the query annotation; update_rng_seed is the
    only method that does not, and it carries no annotation at all. *)
Theorem five_queries_one_update (n : nat) :
  query_methods (idlFactory term_args)
    = ["generate_key"; "greet"; "rng_seed"; "schnorr_signature";
       "validate_schnorr"]
  /\ update_methods (idlFactory term_args) = ["update_rng_seed"]
  /\ option_map annotations
       (get "update_rng_seed" (methods (idlFactory term_args))) = Some []
  /\ option_map query_methods
       (did_denote (3 + n) freederation_nostr_backend_did)
       = Some ["generate_key"; "greet"; "rng_seed"; "schnorr_signature";
               "validate_schnorr"]
  /\ option_map update_methods
       (did_denote (3 + n) freederation_nostr_backend_did)
       = Some ["update_rng_seed"].
Proof. repeat split. Qed.

(** C4: SIGNATURE_INFO is a record of exactly two fields, verifying_key
    and signature_str, both text, in the Candid file, in the TypeScript
    declarations and in the service built by [idlFactory]. *)
Theorem SIGNATURE_INFO_fields :
  get "SIGNATURE_INFO" (type_defs freederation_nostr_backend_did)
    = Some (did_record
              [("verifying_key", did_text); ("signature_str", did_text)])
  /\ get "SIGNATURE_INFO" (interfaces freederation_nostr_backend_did_d_ts)
       = Some [("verifying_key", ts_string); ("signature_str", ts_string)]
  /\ records_of_service (idlFactory term_args)
       = [RecordClass
            [("verifying_key", TextClass); ("signature_str", TextClass)]].
Proof. repeat split. Qed.

(** ** The three descriptions compared *)

(** C8, as stated: the TypeScript declarations do not stand for the
    service built by [idlFactory], whatever the fuel; they carry no
    query annotation. *)
Lemma ts_declarations_lack_query :
  ~ exists fuel,
      descriptions_agree fuel freederation_nostr_backend_did
        freederation_nostr_backend_did_d_ts (idlFactory term_args).
Proof.
  intros [fuel [_ Hts]].
  apply ts_denote_annotations in Hts.
  inversion Hts as [|m ms Hm _]. discriminate Hm.
Qed.

(** C8, amended: the Candid file stands for the very service built by
    [idlFactory], annotations included; the TypeScript declarations
    stand for that service with the annotations erased. *)
Theorem descriptions_agree_up_to_annotations (n : nat) :
  did_denote (3 + n) freederation_nostr_backend_did
    = Some (idlFactory term_args)
  /\ ts_denote (3 + n) freederation_nostr_backend_did_d_ts
       = Some (erase_service (idlFactory term_args)).
Proof. split; reflexivity. Qed.

(** ** The JavaScript module *)

(** C9: [init] returns the empty list of types whatever [IDL] it is
    given. *)
Theorem init_no_arguments (T F S : Type) (args : factory_args T F S) :
  init args = [].
Proof. reflexivity. Qed.

(** ** The seed store and the greeting stub *)

(** C6: [rng_seed] returns the current seed and leaves it in place,
    [update_rng_seed s] replaces it by [s], and [rng_seed] called after
    [update_rng_seed s] returns [s]. *)
Theorem rng_seed_after_update (s : string) (st : canister_state) :
  rng_seed st = (seed st, st)
  /\ seed (snd (update_rng_seed s st)) = s
  /\ fst ((update_rng_seed s ;;; rng_seed) st) = s.
Proof. repeat split. Qed.

(** C7: [greet s] returns [s] and leaves the canister state as it
    was. *)
Theorem greet_echo (s : string) (st : canister_state) :
  greet s st = (s, st).
Proof. reflexivity. Qed.

(** ** The factory under any implementation of the namespace *)

(** A namespace that does not look at the annotations of a method
    interprets a service and the same service without annotations
    alike. *)
Lemma interp_service_erase (T F S : Type) (I : IDL_namespace T F S)
  (s : ServiceClass) :
  (forall args rets anns, Func I args rets anns = Func I args rets []) ->
  interp_service I (erase_service s) = interp_service I s.
Proof.
  intros Hblind. unfold interp_service, erase_service. simpl.
  rewrite map_map. f_equal. apply map_ext. intros m. simpl.
  unfold interp_func. simpl. symmetry. now rewrite Hblind.
Qed.

(** X2: whatever implementation of the IDL namespace it is given,
    [idlFactory] builds the interpretation of the service the Candid
    file denotes. *)
Theorem idlFactory_builds_did (T F S : Type) (I : IDL_namespace T F S)
  (n : nat) :
  option_map (interp_service I)
    (did_denote (3 + n) freederation_nostr_backend_did)
  = Some (idlFactory {| IDL := I |}).
Proof. reflexivity. Qed.

(** X3: for an implementation of the IDL namespace whose Func does not
    look at the annotations, [idlFactory] builds the interpretation of
    the service the TypeScript declarations denote. *)
Theorem idlFactory_builds_d_ts (T F S : Type) (I : IDL_namespace T F S)
  (n : nat) :
  (forall args rets anns, Func I args rets anns = Func I args rets []) ->
  option_map (interp_service I)
    (ts_denote (3 + n) freederation_nostr_backend_did_d_ts)
  = Some (idlFactory {| IDL := I |}).
Proof.
  intros Hblind.
  change (ts_denote (3 + n) freederation_nostr_backend_did_d_ts)
    with (Some (erase_service (idlFactory term_args))).
  simpl option_map. f_equal.
  rewrite (interp_service_erase I (idlFactory term_args) Hblind).
  reflexivity.
Qed.

Lemma idlFactory_builds_d_ts_witness :
  option_map (interp_service signature_IDL)
    (ts_denote 3 freederation_nostr_backend_did_d_ts)
  = Some (idlFactory {| IDL := signature_IDL |}).
Proof.
  apply (idlFactory_builds_d_ts signature_IDL 0). intros. reflexivity.
Defined.
